(** * divider.py: border removal, Otsu binarisation and morphological clean-up

    A shallow embedding of [src/divider.py].  The script is a straight line
    of OpenCV / NumPy calls on one image buffer.  Each library call the script
    makes is embedded as a function over lists of rows, following the
    operation's documented per-pixel definition; the script itself is embedded
    twice: its pure data flow ([process], lines 8-30) and its effects on the
    file system and the display ([script], lines 5, 12, 33, 35, 36). *)

From stdpp Require Import base list strings gmap.
From Stdlib Require Import ZArith Lia.

Local Open Scope Z_scope.

(** ** Data model *)

(** An 8-bit sample; NumPy's [uint8].  Arithmetic results are reduced with
    [wrap8] where NumPy would wrap. *)
Abbreviation sample := Z (only parsing).

Definition wrap8 (v : Z) : sample := v mod 256.

(** One pixel of a 3-channel image, channels in the order the array stores
    them (index 0, 1, 2 of the last axis; OpenCV loads them as B, G, R). *)
Abbreviation pixel := (sample * sample * sample)%type (only parsing).

Definition ch0 (p : pixel) : sample := p.1.1.
Definition ch1 (p : pixel) : sample := p.1.2.
Definition ch2 (p : pixel) : sample := p.2.

(** An array of shape (H, W, 3) resp. (H, W): a list of H rows. *)
Abbreviation image := (list (list pixel)) (only parsing).
Abbreviation plane := (list (list sample)) (only parsing).

(** The shape of an array as the list of its row lengths. *)
Definition shape {A} (m : list (list A)) : list nat := length <$> m.

(** [has_dims W H m]: [m] has H rows of W columns each. *)
Definition has_dims {A} (W H : nat) (m : list (list A)) : Prop :=
  shape m = replicate H W.

(** Element at row [r], column [c], when inside the array. *)
Definition px {A} (m : list (list A)) (r c : nat) : option A :=
  m !! r ≫= (.!! c).

(** Element at a signed position; [d] stands for every position outside the
    array (the constant border of the morphological filters). *)
Definition at_border (d : sample) (m : plane) (r c : Z) : sample :=
  if (r <? 0) || (c <? 0) then d
  else default d (px m (Z.to_nat r) (Z.to_nat c)).

(** ** The library calls of the script *)

(** Lines 8-9. *)
Definition lower : pixel := (0, 80, 110).
Definition upper : pixel := (0, 120, 150).

(** The per-pixel test of [cv2.inRange]: every channel within its inclusive
    bounds. *)
Definition in_range (lo hi p : pixel) : bool :=
  (ch0 lo <=? ch0 p) && (ch0 p <=? ch0 hi) &&
  (ch1 lo <=? ch1 p) && (ch1 p <=? ch1 hi) &&
  (ch2 lo <=? ch2 p) && (ch2 p <=? ch2 hi).

(** [cv2.inRange(src, lowerb, upperb)]: 255 where the test holds, 0
    elsewhere. *)
Definition inRange (src : image) (lo hi : pixel) : plane :=
  fmap (M := list) (fun p => if in_range lo hi p then 255 else 0) <$> src.

(** [cv2.getStructuringElement(cv2.MORPH_RECT, (w, h))]: an h-by-w array of
    ones. *)
Definition getStructuringElement_RECT (ksize : nat * nat) : plane :=
  replicate ksize.2 (replicate ksize.1 1).

(** The default anchor (-1, -1) of the morphological filters is the kernel
    centre: (row, column) = (rows / 2, cols / 2). *)
Definition anchor (kernel : plane) : Z * Z :=
  (Z.of_nat (length kernel) / 2, Z.of_nat (length (default [] (head kernel))) / 2).

(** The source samples under the non-zero kernel elements when the anchor
    sits on (r, c); positions outside the source read [d]. *)
Definition window (d : sample) (kernel src : plane) (r c : nat) : list sample :=
  mjoin (imap (fun i krow =>
    mjoin (imap (fun j e =>
      if e =? 0 then []
      else [at_border d src (Z.of_nat r + Z.of_nat i - (anchor kernel).1)
                            (Z.of_nat c + Z.of_nat j - (anchor kernel).2)])
      krow)) kernel).

(** [cv2.dilate]: the maximum over the window.  With the default border
    (BORDER_CONSTANT, morphologyDefaultBorderValue) positions outside the
    image take the least sample value, so they never win. *)
Definition dilate (src kernel : plane) : plane :=
  imap (fun r row => imap (fun c _ => foldr Z.max 0 (window 0 kernel src r c)) row) src.

(** [cv2.erode]: the minimum over the window; outside positions take the
    greatest sample value. *)
Definition erode (src kernel : plane) : plane :=
  imap (fun r row => imap (fun c _ => foldr Z.min 255 (window 255 kernel src r c)) row) src.

(** The two operations of [cv2.morphologyEx] the script uses. *)
Inductive morph_op := MORPH_DILATE | MORPH_OPEN.

Definition morphologyEx (src : plane) (op : morph_op) (kernel : plane) : plane :=
  match op with
  | MORPH_DILATE => dilate src kernel
  | MORPH_OPEN => dilate (erode src kernel) kernel
  end.

Definition white : pixel := (255, 255, 255).

(** Line 19, [img[mask==255] = (255,255,255)]: boolean-mask assignment into
    the buffer [img]; the result is the buffer after the store. *)
Definition setitem_mask (img : image) (mask : plane) (v : pixel) : image :=
  zip_with (zip_with (fun p m => if m =? 255 then v else p)) img mask.

(** Line 30, [255 - morph] on a [uint8] array. *)
Definition rsub (k : Z) (m : plane) : plane :=
  fmap (M := list) (fun v => wrap8 (k - v)) <$> m.

Section Pipeline.

(** Two numeric details are fixed by the library, not by the script: the
    luminance weights of [COLOR_BGR2GRAY] and the level Otsu's method picks
    (computed in floating point from the histogram).  The pipeline is
    stated for any such choice. *)
Variable luma : pixel -> sample.
Variable otsu_level : plane -> Z.

(** [cv2.cvtColor(img, cv2.COLOR_BGR2GRAY)]. *)
Definition cvtColor_BGR2GRAY (img : image) : plane :=
  fmap (M := list) luma <$> img.

(** [cv2.threshold(src, 0, maxval, cv2.THRESH_OTSU)[1]]: THRESH_BINARY
    against the Otsu level; the [thresh] argument 0 is ignored. *)
Definition threshold_OTSU (src : plane) (maxval : sample) : plane :=
  fmap (M := list) (fun v => if otsu_level src <? v then maxval else 0) <$> src.

(** Every value the script binds between lines 12 and 30. *)
Record stages := {
  border_mask : plane;   (* line 12 *)
  dilated_mask : plane;  (* line 16 *)
  recolored : image;     (* img after line 19 *)
  gray : plane;          (* line 22 *)
  thresh : plane;        (* line 25 *)
  opened : plane;        (* line 29 *)
  morph : plane          (* line 30 *)
}.

(** Lines 12-30 on a loaded image. *)
Definition process (img : image) : stages :=
  let mask0 := inRange img lower upper in
  let kernel := getStructuringElement_RECT (15, 15)%nat in
  let mask := morphologyEx mask0 MORPH_DILATE kernel in
  let img' := setitem_mask img mask white in
  let gray := cvtColor_BGR2GRAY img' in
  let thresh := threshold_OTSU gray 255 in
  let kernel := getStructuringElement_RECT (17, 17)%nat in
  let morph0 := morphologyEx thresh MORPH_OPEN kernel in
  let morph := rsub 255 morph0 in
  {| border_mask := mask0; dilated_mask := mask; recolored := img';
     gray := gray; thresh := thresh; opened := morph0; morph := morph |}.

End Pipeline.

(** ** Effects: the script as a program over the file system and the display *)

(** File contents are byte strings; which bytes decode to which image, and
    which bytes the JPEG encoder produces, is the codec's business. *)
Abbreviation bytes := (list Z) (only parsing).

Record world := {
  files : gmap string bytes;        (* the working directory, one file per
                                       name; links between names and other
                                       spellings of a name are not modelled *)
  writable : bool;                  (* can [morph.jpg] be created there *)
  windows : list (string * plane)   (* what the display shows *)
}.

(** An unhandled exception, tagged with the line that raised it. *)
Inductive exn := cv2_error (line : nat).

(** The effectful calls of the script, each with the rest of the run. *)
Inductive prog :=
| Exit                                                 (* end of the script *)
| Raise (e : exn)                                      (* traceback, exit *)
| Imread (path : string) (k : option image -> prog)    (* None is Python's None *)
| Imwrite (path : string) (m : plane) (k : bool -> prog)
| Imshow (name : string) (m : plane) (k : prog)
| WaitKey (k : Z -> prog).                             (* cv2.waitKey(0) *)

Section Script.

Variable luma : pixel -> sample.
Variable otsu_level : plane -> Z.
Variable imdecode : bytes -> option image.
Variable imencode_jpg : plane -> bytes.

(** [cv2.imread(path)]: the decoded image, or None when the file is
    missing or cannot be decoded.  It never raises. *)
Definition imread (w : world) (path : string) : option image :=
  files w !! path ≫= imdecode.

(** [cv2.imwrite(path, m)]: stores the encoding and returns True, or
    returns False and stores nothing. *)
Definition imwrite (w : world) (path : string) (m : plane) : world * bool :=
  if writable w
  then ({| files := <[path := imencode_jpg m]> (files w);
           writable := writable w; windows := windows w |}, true)
  else (w, false).

Definition imshow (w : world) (name : string) (m : plane) : world :=
  {| files := files w; writable := writable w;
     windows := (name, m) :: windows w |}.

(** The script.  Line 12 is where a failed load surfaces:
    [cv2.inRange(None, ...)] raises. *)
Definition script : prog :=
  Imread "test.png" (fun img =>                       (* line 5 *)
  match img with
  | None => Raise (cv2_error 12)                      (* line 12 *)
  | Some img =>
    let s := process luma otsu_level img in           (* lines 12-30 *)
    Imwrite "morph.jpg" (morph s) (fun _ =>           (* line 33 *)
    Imshow "morph" (morph s) (                        (* line 35 *)
    WaitKey (fun _ => Exit)))                         (* line 36 *)
  end).

(** One step of the run.  [key] is the key press, if any, that the
    window system delivers during this step; only a pending [WaitKey]
    consumes it, and without one the wait stays where it is. *)
Definition step (key : option Z) (c : world * prog) : world * prog :=
  match c.2 with
  | Exit => c
  | Raise _ => c
  | Imread path k => (c.1, k (imread c.1 path))
  | Imwrite path m k => let r := imwrite c.1 path m in (r.1, k r.2)
  | Imshow name m k => (imshow c.1 name m, k)
  | WaitKey k => match key with Some code => (c.1, k code) | None => c end
  end.

(** The configuration after [n] steps; [keys i] is delivered at step [i]. *)
Fixpoint exec (keys : nat -> option Z) (n : nat) (c : world * prog) : world * prog :=
  match n with
  | O => c
  | S n => step (keys n) (exec keys n c)
  end.

Definition run (keys : nat -> option Z) (n : nat) (w : world) : world * prog :=
  exec keys n (w, script).

End Script.

(** Program points. *)
Definition exited (p : prog) : bool := match p with Exit => true | _ => false end.
Definition waiting (p : prog) : bool := match p with WaitKey _ => true | _ => false end.
Definition showing (p : prog) : bool := match p with Imshow _ _ _ => true | _ => false end.

(** ** Concrete library defaults, to run the pipeline on examples *)

(** The fixed-point BT.601 weights of [COLOR_BGR2GRAY] on 8-bit data:
    15-bit coefficients for B, G, R (3735 + 19235 + 9798 = 2^15), rounded to
    nearest by adding 2^14 before the shift. *)
Definition luma_bt601 (p : pixel) : sample :=
  Z.shiftr (ch0 p * 3735 + ch1 p * 19235 + ch2 p * 9798 + 16384) 15.

(** Otsu's criterion in exact arithmetic: the level [t] in 0..255 that
    maximises the between-class variance of the classes [v <= t] and
    [t < v], i.e. (S*n0 - N*s0)^2 / (n0 * (N - n0)); the first maximum wins.
    This is a stand-in, not the library's loop: the library evaluates the
    same criterion in floating point, where levels of equal exact score are
    told apart by rounding, so it can return a later level of a tie. *)
Definition otsu_score (vs : list Z) (t : Z) : Z * Z :=
  let lo := filter (fun v => v <= t) vs in
  let n0 := Z.of_nat (length lo) in
  let n := Z.of_nat (length vs) in
  let d := foldr Z.add 0 vs * n0 - n * foldr Z.add 0 lo in
  (d * d, n0 * (n - n0)).

Definition otsu_exact (src : plane) : Z :=
  let vs := mjoin src in
  (foldl (fun (best : Z * (Z * Z)) (t : Z) =>
            let s := otsu_score vs t in
            if (0 <? s.2) && (best.2.1 * s.2 <? s.1 * best.2.2)
            then (t, s) else best)
         (0, (0, 1)) (seqZ 0 256)).1.

(** A stand-in codec for examples: a file is one row of grey pixels, an
    empty file does not decode; encoding lists the samples row by row. *)
Definition demo_decode (b : bytes) : option image :=
  match b with [] => None | _ => Some [(fun v => (v, v, v)) <$> b] end.

Definition demo_encode (m : plane) : bytes := mjoin m.

(** ** Vocabulary of the properties *)

(** Every sample is 0 or 255. *)
Definition binary (m : plane) : Prop :=
  forall r c v, px m r c = Some v -> v = 0 \/ v = 255.

(** The border colour range, channel by channel (lines 8-9). *)
Definition border_colour (p : pixel) : Prop :=
  0 <= ch0 p <= 0 /\ 80 <= ch1 p <= 120 /\ 110 <= ch2 p <= 150.

(** Strictly outside the range on each of the three channels. *)
Definition outside_all (p : pixel) : Prop :=
  (ch0 p < 0 \/ 0 < ch0 p) /\ (ch1 p < 80 \/ 120 < ch1 p) /\
  (ch2 p < 110 \/ 150 < ch2 p).

(** No pixel of the border colour within [d] rows and [d] columns of
    (r, c), the position itself included. *)
Definition clear_around (d : Z) (img : image) (r c : nat) : Prop :=
  forall r' c' q,
    Z.abs (Z.of_nat r' - Z.of_nat r) <= d ->
    Z.abs (Z.of_nat c' - Z.of_nat c) <= d ->
    px img r' c' = Some q -> ~ border_colour q.

(** No pixel of the border colour anywhere. *)
Definition no_border_colour (img : image) : Prop :=
  forall r c q, px img r c = Some q -> ~ border_colour q.

(** [morph.jpg] holds the encoding of [m]. *)
Definition saved (enc : plane -> bytes) (m : plane) (w : world) : Prop :=
  files w !! "morph.jpg" = Some (enc m).

(** The run has reached the display: [imshow] is the next call, or the
    window is up, or the key wait has begun or is over. *)
Definition at_display (w0 : world) (c : world * prog) : Prop :=
  showing c.2 = true \/ windows c.1 <> windows w0 \/
  waiting c.2 = true \/ exited c.2 = true.

(** Position (r', c') is at most [d] rows and [d] columns from (r, c). *)
Definition near (d : Z) (r c r' c' : nat) : Prop :=
  Z.abs (Z.of_nat r' - Z.of_nat r) <= d /\ Z.abs (Z.of_nat c' - Z.of_nat c) <= d.

(** Every pixel of [m] at most [d] rows and columns from (r, c) is 255: the
    (2d+1)-square centred there, clipped to the array, is solid. *)
Definition solid_around (d : Z) (m : plane) (r c : nat) : Prop :=
  forall r' c' v, near d r c r' c' -> px m r' c' = Some v -> v = 255.

(** * Properties *)

(** ** Shapes and element access *)

Section Arrays.

Context {A B C : Type}.

Lemma shape_fmap (f : A -> B) (m : list (list A)) :
  shape (fmap (M := list) f <$> m) = shape m.
Proof.
  unfold shape. rewrite <- list_fmap_compose.
  apply list_fmap_ext. intros i row _. simpl. apply length_fmap.
Qed.

Lemma shape_imap (f : nat -> nat -> A -> B) (m : list (list A)) :
  shape (imap (fun r row => imap (f r) row) m) = shape m.
Proof.
  unfold shape. apply list_eq. intros i.
  rewrite !list_lookup_fmap, list_lookup_imap.
  destruct (m !! i); simpl; [|done]. by rewrite length_imap.
Qed.

Lemma shape_zip_with (f : A -> B -> C) (a : list (list A)) (b : list (list B)) :
  shape b = shape a -> shape (zip_with (zip_with f) a b) = shape a.
Proof.
  unfold shape. revert b. induction a as [|ra a IH]; intros [|rb b]; simpl; try done.
  intros [= Hr Hm]. f_equal; [|by apply IH].
  rewrite length_zip_with. lia.
Qed.

Lemma px_Some (m : list (list A)) r c x :
  px m r c = Some x <-> exists row, m !! r = Some row /\ row !! c = Some x.
Proof.
  unfold px. destruct (m !! r) as [row|]; simpl.
  - split; [eauto|]. by intros (? & [= <-] & ?).
  - split; [done|]. by intros (? & ? & ?).
Qed.

Lemma px_fmap (f : A -> B) (m : list (list A)) r c :
  px (fmap (M := list) f <$> m) r c = f <$> px m r c.
Proof.
  unfold px. rewrite list_lookup_fmap.
  destruct (m !! r); simpl; [|done]. apply list_lookup_fmap.
Qed.

Lemma px_imap (f : nat -> nat -> A -> B) (m : list (list A)) r c :
  px (imap (fun r row => imap (f r) row) m) r c = f r c <$> px m r c.
Proof.
  unfold px. rewrite list_lookup_imap.
  destruct (m !! r); simpl; [|done]. apply list_lookup_imap.
Qed.

Lemma px_zip_with (f : A -> B -> C) (a : list (list A)) (b : list (list B)) r c :
  px (zip_with (zip_with f) a b) r c =
  x ← px a r c; y ← px b r c; Some (f x y).
Proof.
  unfold px. rewrite lookup_zip_with.
  destruct (a !! r) as [ra|]; simpl; [|done].
  destruct (b !! r) as [rb|]; simpl.
  - apply lookup_zip_with.
  - by destruct (ra !! c).
Qed.

(** Two arrays of one shape are inhabited at the same positions. *)
Lemma px_same_shape (a : list (list A)) (b : list (list B)) r c :
  shape a = shape b -> is_Some (px a r c) -> is_Some (px b r c).
Proof.
  unfold shape, px. intros Hs [x Hx].
  assert (Hr := f_equal (.!! r) Hs). rewrite !list_lookup_fmap in Hr.
  destruct (a !! r) as [ra|]; simpl in *; [|done].
  destruct (b !! r) as [rb|]; simpl in *; [|done].
  apply lookup_lt_is_Some. apply lookup_lt_Some in Hx.
  injection Hr as Hr. lia.
Qed.

Lemma zip_with_same_shape_id (f : A -> B -> A) (a : list (list A)) (b : list (list B)) :
  shape b = shape a ->
  (forall r c x y, px a r c = Some x -> px b r c = Some y -> f x y = x) ->
  zip_with (zip_with f) a b = a.
Proof.
  intros Hs Hf. apply list_eq. intros r.
  assert (Hr := f_equal (.!! r) Hs). unfold shape in Hr.
  rewrite !list_lookup_fmap in Hr. rewrite lookup_zip_with.
  destruct (a !! r) as [ra|] eqn:Ea; simpl in *; [|done].
  destruct (b !! r) as [rb|] eqn:Eb; simpl in *; [|done].
  injection Hr as Hr. f_equal. apply list_eq. intros c.
  rewrite lookup_zip_with.
  destruct (ra !! c) as [x|] eqn:Ex; simpl; [|done].
  destruct (rb !! c) as [y|] eqn:Ey; simpl.
  - f_equal. apply (Hf r c); unfold px; [by rewrite Ea|by rewrite Eb].
  - apply lookup_lt_Some in Ex. apply lookup_ge_None in Ey. lia.
Qed.

End Arrays.

(** ** The window of a morphological filter *)

Lemma elem_of_window d kernel src r c v :
  v ∈ window d kernel src r c <->
  exists i j e, px kernel i j = Some e /\ e <> 0 /\
    v = at_border d src (Z.of_nat r + Z.of_nat i - (anchor kernel).1)
                        (Z.of_nat c + Z.of_nat j - (anchor kernel).2).
Proof.
  unfold window. rewrite list_elem_of_join. split.
  - intros (l & Hv & Hl).
    apply elem_of_lookup_imap in Hl as (i & krow & -> & Hi).
    apply list_elem_of_join in Hv as (l & Hv & Hl).
    apply elem_of_lookup_imap in Hl as (j & e & -> & Hj).
    destruct (Z.eqb_spec e 0) as [|Hne]; [by apply elem_of_nil in Hv|].
    apply list_elem_of_singleton in Hv.
    exists i, j, e. split; [apply px_Some; eauto|done].
  - intros (i & j & e & (krow & Hi & He)%px_Some & Hne & ->).
    eexists. split; [|apply elem_of_lookup_imap; eauto].
    apply list_elem_of_join. eexists. split; [|apply elem_of_lookup_imap; eauto].
    simpl. destruct (Z.eqb_spec e 0); [done|]. apply list_elem_of_singleton. done.
Qed.

(** The rectangular kernel: all ones, anchored at its centre. *)
Lemma px_RECT w h i j e :
  px (getStructuringElement_RECT (w, h)) i j = Some e <->
  (i < h)%nat /\ (j < w)%nat /\ e = 1.
Proof.
  unfold px, getStructuringElement_RECT. simpl. split.
  - intros (row & Hi & He)%px_Some.
    apply lookup_replicate in Hi as [-> Hi].
    apply lookup_replicate in He as [-> Hj]. done.
  - intros (Hi & Hj & ->). apply px_Some. eexists.
    split; by apply lookup_replicate_2.
Qed.

Lemma anchor_RECT w h :
  anchor (getStructuringElement_RECT (w, h)) =
  (Z.of_nat h / 2, if decide (h = 0%nat) then 0 else Z.of_nat w / 2).
Proof.
  unfold anchor, getStructuringElement_RECT. simpl. rewrite length_replicate.
  destruct h; simpl; [done|]. by rewrite length_replicate.
Qed.

(** ** Folding maximum and minimum over a window *)

Lemma foldr_max_ge (l : list Z) x : x ∈ l -> x <= foldr Z.max 0 l.
Proof.
  induction l as [|y l IH]; [by intros ?%elem_of_nil|].
  intros [->|Hx]%elem_of_cons; simpl; [lia|]. specialize (IH Hx). lia.
Qed.

Lemma foldr_max_le (l : list Z) b :
  0 <= b -> (forall x, x ∈ l -> x <= b) -> foldr Z.max 0 l <= b.
Proof.
  intros Hb. induction l as [|y l IH]; simpl; [done|]. intros Hl.
  assert (y <= b) by (apply Hl; left).
  assert (foldr Z.max 0 l <= b) by (apply IH; intros; apply Hl; by right). lia.
Qed.

Lemma foldr_max_binary (l : list Z) :
  (forall x, x ∈ l -> x = 0 \/ x = 255) ->
  foldr Z.max 0 l = 0 \/ foldr Z.max 0 l = 255.
Proof.
  induction l as [|y l IH]; simpl; [by left|]. intros Hl.
  destruct (Hl y) as [->| ->]; [left| |]; destruct IH as [-> | ->];
    try (intros; apply Hl; by right); lia.
Qed.

Lemma foldr_min_binary (l : list Z) :
  (forall x, x ∈ l -> x = 0 \/ x = 255) ->
  foldr Z.min 255 l = 0 \/ foldr Z.min 255 l = 255.
Proof.
  induction l as [|y l IH]; simpl; [by right|]. intros Hl.
  destruct (Hl y) as [->| ->]; [left| |]; destruct IH as [-> | ->];
    try (intros; apply Hl; by right); lia.
Qed.

Lemma foldr_max_nonneg (l : list Z) : 0 <= foldr Z.max 0 l.
Proof. induction l as [|y l IH]; simpl; lia. Qed.

Lemma foldr_max_zero (l : list Z) :
  (forall x, x ∈ l -> x = 0) -> foldr Z.max 0 l = 0.
Proof.
  intros Hl. apply Z.le_antisymm; [|apply foldr_max_nonneg].
  apply foldr_max_le; [done|]. intros x Hx. by rewrite (Hl x Hx).
Qed.

(** ** The stages, element by element *)

Lemma in_range_border_colour p :
  in_range lower upper p = true <-> border_colour p.
Proof.
  unfold in_range, border_colour, lower, upper, ch0, ch1, ch2. simpl.
  rewrite !andb_true_iff, !Z.leb_le. tauto.
Qed.

Lemma px_inRange img lo hi r c :
  px (inRange img lo hi) r c =
  (fun p => if in_range lo hi p then 255 else 0) <$> px img r c.
Proof. apply px_fmap. Qed.

Lemma px_dilate src kernel r c :
  px (dilate src kernel) r c =
  (fun _ => foldr Z.max 0 (window 0 kernel src r c)) <$> px src r c.
Proof. apply (px_imap (fun r c _ => foldr Z.max 0 (window 0 kernel src r c))). Qed.

Lemma px_erode src kernel r c :
  px (erode src kernel) r c =
  (fun _ => foldr Z.min 255 (window 255 kernel src r c)) <$> px src r c.
Proof. apply (px_imap (fun r c _ => foldr Z.min 255 (window 255 kernel src r c))). Qed.

Lemma at_border_inside d m (r c : nat) :
  at_border d m (Z.of_nat r) (Z.of_nat c) = default d (px m r c).
Proof.
  unfold at_border.
  replace (Z.of_nat r <? 0) with false by (symmetry; apply Z.ltb_ge; lia).
  replace (Z.of_nat c <? 0) with false by (symmetry; apply Z.ltb_ge; lia).
  simpl. by rewrite !Nat2Z.id.
Qed.

(** A sample read through the border is the border value or a sample of the
    array, at the position read. *)
Lemma at_border_cases d m r c :
  at_border d m r c = d \/
  (0 <= r /\ 0 <= c /\ px m (Z.to_nat r) (Z.to_nat c) = Some (at_border d m r c)).
Proof.
  unfold at_border.
  destruct (Z.ltb_spec r 0); simpl; [by left|].
  destruct (Z.ltb_spec c 0); simpl; [by left|].
  destruct (px m (Z.to_nat r) (Z.to_nat c)) as [v|] eqn:E; simpl; [right|left]; done.
Qed.

Lemma at_border_binary d m r c :
  binary m -> d = 0 \/ d = 255 -> at_border d m r c = 0 \/ at_border d m r c = 255.
Proof.
  intros Hm Hd. destruct (at_border_cases d m r c) as [->|(_ & _ & Hv)]; [done|].
  by apply Hm in Hv.
Qed.

(** ** Binary planes stay binary *)

Lemma binary_inRange img lo hi : binary (inRange img lo hi).
Proof.
  intros r c v. rewrite px_inRange.
  destruct (px img r c) as [p|]; simpl; [|done].
  intros [= <-]. destruct (in_range lo hi p); auto.
Qed.

Lemma binary_dilate src kernel : binary src -> binary (dilate src kernel).
Proof.
  intros Hs r c v. rewrite px_dilate.
  destruct (px src r c); simpl; [|done]. intros [= <-].
  apply foldr_max_binary. intros x (i & j & e & _ & _ & ->)%elem_of_window.
  apply at_border_binary; auto.
Qed.

Lemma binary_erode src kernel : binary src -> binary (erode src kernel).
Proof.
  intros Hs r c v. rewrite px_erode.
  destruct (px src r c); simpl; [|done]. intros [= <-].
  apply foldr_min_binary. intros x (i & j & e & _ & _ & ->)%elem_of_window.
  apply at_border_binary; auto.
Qed.

Lemma binary_morphologyEx src op kernel :
  binary src -> binary (morphologyEx src op kernel).
Proof.
  intros Hs. destruct op; simpl; auto using binary_dilate, binary_erode.
Qed.

Lemma binary_threshold_OTSU otsu_level src :
  binary (threshold_OTSU otsu_level src 255).
Proof.
  intros r c v. unfold threshold_OTSU. rewrite px_fmap.
  intros (x & _ & ->)%fmap_Some. destruct (_ <? _); auto.
Qed.

Lemma binary_rsub m : binary m -> binary (rsub 255 m).
Proof.
  intros Hm r c v. unfold rsub. rewrite px_fmap.
  intros (x & Hx & ->)%fmap_Some.
  destruct (Hm r c x Hx) as [-> | ->]; [right|left]; reflexivity.
Qed.

(** ** Shapes of the stages *)

Lemma shape_morphologyEx src op kernel :
  shape (morphologyEx src op kernel) = shape src.
Proof.
  destruct op; simpl; unfold dilate, erode.
  - apply (shape_imap (fun r c _ => foldr Z.max 0 (window 0 kernel src r c))).
  - etrans; [apply (shape_imap (fun r c _ => foldr Z.max 0 (window 0 kernel _ r c)))|].
    apply (shape_imap (fun r c _ => foldr Z.min 255 (window 255 kernel src r c))).
Qed.

(** The data flow of [process], one equation per line of the script. *)
Section Flow.

Variable luma : pixel -> sample.
Variable otsu_level : plane -> Z.
Variable img : image.

Let s := process luma otsu_level img.

Lemma border_mask_eq : border_mask s = inRange img lower upper.
Proof. reflexivity. Qed.

Lemma dilated_mask_eq :
  dilated_mask s =
  morphologyEx (border_mask s) MORPH_DILATE (getStructuringElement_RECT (15, 15)%nat).
Proof. reflexivity. Qed.

Lemma recolored_eq : recolored s = setitem_mask img (dilated_mask s) white.
Proof. reflexivity. Qed.

Lemma gray_eq : gray s = cvtColor_BGR2GRAY luma (recolored s).
Proof. reflexivity. Qed.

Lemma thresh_eq : thresh s = threshold_OTSU otsu_level (gray s) 255.
Proof. reflexivity. Qed.

Lemma opened_eq :
  opened s =
  morphologyEx (thresh s) MORPH_OPEN (getStructuringElement_RECT (17, 17)%nat).
Proof. reflexivity. Qed.

Lemma morph_eq : morph s = rsub 255 (opened s).
Proof. reflexivity. Qed.

Lemma shape_border_mask : shape (border_mask s) = shape img.
Proof. rewrite border_mask_eq. apply shape_fmap. Qed.

Lemma shape_dilated_mask : shape (dilated_mask s) = shape img.
Proof. rewrite dilated_mask_eq, shape_morphologyEx. apply shape_border_mask. Qed.

Lemma shape_recolored : shape (recolored s) = shape img.
Proof. rewrite recolored_eq. apply shape_zip_with, shape_dilated_mask. Qed.

Lemma shape_gray : shape (gray s) = shape img.
Proof. rewrite gray_eq. unfold cvtColor_BGR2GRAY. rewrite shape_fmap. apply shape_recolored. Qed.

Lemma shape_thresh : shape (thresh s) = shape img.
Proof. rewrite thresh_eq. unfold threshold_OTSU. rewrite shape_fmap. apply shape_gray. Qed.

Lemma shape_opened : shape (opened s) = shape img.
Proof. rewrite opened_eq, shape_morphologyEx. apply shape_thresh. Qed.

Lemma shape_morph : shape (morph s) = shape img.
Proof. rewrite morph_eq. unfold rsub. rewrite shape_fmap. apply shape_opened. Qed.

Lemma binary_thresh : binary (thresh s).
Proof. rewrite thresh_eq. apply binary_threshold_OTSU. Qed.

Lemma binary_opened : binary (opened s).
Proof. rewrite opened_eq. apply binary_morphologyEx, binary_thresh. Qed.

End Flow.

(** ** Dilation with a rectangular kernel *)

(** The centre of the kernel reads the pixel itself, so a dilated pixel is at
    least the source pixel. *)
Lemma window_centre w h src r c v :
  (0 < w)%nat -> (0 < h)%nat -> px src r c = Some v ->
  v ∈ window 0 (getStructuringElement_RECT (w, h)) src r c.
Proof.
  intros Hw Hh Hv. apply elem_of_window.
  exists (Z.to_nat (Z.of_nat h / 2)), (Z.to_nat (Z.of_nat w / 2)), 1.
  split; [|split; [done|]].
  - apply px_RECT. split; [|split; [|done]].
    + apply Nat2Z.inj_lt. rewrite Z2Nat.id by (apply Z.div_pos; lia).
      apply Z.div_lt; lia.
    + apply Nat2Z.inj_lt. rewrite Z2Nat.id by (apply Z.div_pos; lia).
      apply Z.div_lt; lia.
  - rewrite anchor_RECT. destruct (decide (h = 0%nat)); [lia|]. simpl.
    rewrite !Z2Nat.id by (apply Z.div_pos; lia).
    replace (Z.of_nat r + _ - _) with (Z.of_nat r) by lia.
    replace (Z.of_nat c + _ - _) with (Z.of_nat c) by lia.
    rewrite at_border_inside. by rewrite Hv.
Qed.

(** Under the 15-by-15 kernel the window of (r, c) reads exactly the
    positions at most 7 rows and 7 columns away. *)
Lemma window_15_reach src r c v :
  v ∈ window 0 (getStructuringElement_RECT (15, 15)%nat) src r c ->
  exists r' c', Z.abs (r' - Z.of_nat r) <= 7 /\ Z.abs (c' - Z.of_nat c) <= 7 /\
    v = at_border 0 src r' c'.
Proof.
  intros (i & j & e & (Hi & Hj & _)%px_RECT & _ & ->)%elem_of_window.
  rewrite anchor_RECT. simpl. change (Z.of_nat 15 / 2) with 7.
  exists (Z.of_nat r + Z.of_nat i - 7), (Z.of_nat c + Z.of_nat j - 7).
  split; [lia|]. split; [lia|done].
Qed.

(** A 255 of a binary plane survives dilation. *)
Lemma dilate_RECT_keeps_255 w h src r c :
  binary src -> (0 < w)%nat -> (0 < h)%nat ->
  px src r c = Some 255 ->
  px (morphologyEx src MORPH_DILATE (getStructuringElement_RECT (w, h))) r c = Some 255.
Proof.
  intros Hb Hw Hh Hv. unfold morphologyEx. rewrite px_dilate.
  apply fmap_Some. exists 255. split; [done|]. apply Z.le_antisymm.
  - apply foldr_max_ge. by apply window_centre.
  - apply foldr_max_le; [done|].
    intros x (i & j & e & _ & _ & ->)%elem_of_window.
    match goal with |- at_border 0 src ?a ?b <= _ =>
      destruct (at_border_binary 0 src a b Hb) as [E|E]; [by left|..]; rewrite E
    end; done.
Qed.

(** * The claims *)

(** C1. For a loaded image of W columns and H rows, every array the script
    derives from it (border mask, dilated mask, recoloured image, grey image,
    thresholded image, opened image, inverted output) has W columns and H
    rows. *)
Theorem dims_preserved (luma : pixel -> sample) (otsu_level : plane -> Z)
    (W H : nat) (img : image) :
  has_dims W H img ->
  let s := process luma otsu_level img in
  has_dims W H (border_mask s) /\ has_dims W H (dilated_mask s) /\
  has_dims W H (recolored s) /\ has_dims W H (gray s) /\
  has_dims W H (thresh s) /\ has_dims W H (opened s) /\
  has_dims W H (morph s).
Proof.
  unfold has_dims. intros Hd. cbv zeta. rewrite <- Hd.
  rewrite shape_border_mask, shape_dilated_mask, shape_recolored, shape_gray,
    shape_thresh, shape_opened, shape_morph. repeat split.
Qed.

Lemma dims_preserved_witness :
  let img : image := [[(0, 100, 130); (10, 10, 10); (0, 0, 0)];
                      [(200, 200, 200); (90, 90, 90); (0, 120, 150)]] in
  has_dims 3 2 img /\
  has_dims 3 2 (morph (process luma_bt601 otsu_exact img)).
Proof.
  intros img. split; [reflexivity|].
  apply (dims_preserved luma_bt601 otsu_exact 3 2 img). reflexivity.
Defined.

(** C3. Dilation only grows the mask: a pixel that is 255 in the border mask
    is 255 in the dilated mask. *)
Theorem dilated_mask_superset (luma : pixel -> sample) (otsu_level : plane -> Z)
    (img : image) (r c : nat) :
  px (border_mask (process luma otsu_level img)) r c = Some 255 ->
  px (dilated_mask (process luma otsu_level img)) r c = Some 255.
Proof.
  intros Hm. rewrite dilated_mask_eq.
  apply dilate_RECT_keeps_255; [apply binary_inRange|lia|lia|done].
Qed.

Lemma dilated_mask_superset_witness :
  let img : image := [[(10, 10, 10); (0, 100, 130)]; [(0, 0, 0); (0, 80, 110)]] in
  px (border_mask (process luma_bt601 otsu_exact img)) 1 1 = Some 255 /\
  px (dilated_mask (process luma_bt601 otsu_exact img)) 1 1 = Some 255.
Proof.
  intros img. split; [reflexivity|].
  apply (dilated_mask_superset luma_bt601 otsu_exact img 1 1). reflexivity.
Defined.

(** C4. At every pixel the saved image is 255 minus the result of the
    17-by-17 open of the thresholded image; the 8-bit subtraction never
    wraps. *)
Theorem output_is_inverted_open (luma : pixel -> sample) (otsu_level : plane -> Z)
    (img : image) (r c : nat) :
  let s := process luma otsu_level img in
  opened s = morphologyEx (thresh s) MORPH_OPEN (getStructuringElement_RECT (17, 17)%nat) /\
  px (morph s) r c = (fun v => 255 - v) <$> px (opened s) r c.
Proof.
  intros s. split; [reflexivity|]. subst s.
  rewrite morph_eq. unfold rsub. rewrite px_fmap.
  pose proof (binary_opened luma otsu_level img r c) as Hb.
  destruct (px (opened _) r c) as [v|]; [|done].
  destruct (Hb v eq_refl) as [-> | ->]; reflexivity.
Qed.

(** C6. The border mask has the shape of the image, holds only 0 and 255,
    and is 255 exactly at the pixels whose channels 0, 1, 2 lie in [0,0],
    [80,120], [110,150]. *)
Theorem border_mask_spec (luma : pixel -> sample) (otsu_level : plane -> Z)
    (img : image) :
  let mask := border_mask (process luma otsu_level img) in
  shape mask = shape img /\ binary mask /\
  forall r c, px mask r c = Some 255 <->
              exists p, px img r c = Some p /\ border_colour p.
Proof.
  intros mask. subst mask. split; [apply shape_border_mask|].
  split; [apply binary_inRange|]. intros r c.
  rewrite border_mask_eq, px_inRange. split.
  - intros (p & Hp & Hv)%fmap_Some. exists p. split; [done|].
    apply in_range_border_colour. by destruct (in_range lower upper p).
  - intros (p & -> & Hp%in_range_border_colour). simpl. by rewrite Hp.
Qed.

(** C7. Line 19 stores white at every pixel the dilated mask selects and
    leaves every other pixel as it was; the grey conversion of line 22 reads
    the buffer after that store. *)
Theorem recolor_spec (luma : pixel -> sample) (otsu_level : plane -> Z)
    (img : image) (r c : nat) (p : pixel) (m : sample) :
  let s := process luma otsu_level img in
  px img r c = Some p ->
  px (dilated_mask s) r c = Some m ->
  (m = 255 -> px (recolored s) r c = Some (255, 255, 255)) /\
  (m <> 255 -> px (recolored s) r c = Some p) /\
  gray s = cvtColor_BGR2GRAY luma (recolored s).
Proof.
  intros s Hp Hm. subst s. rewrite recolored_eq. unfold setitem_mask.
  rewrite px_zip_with, Hp, Hm. simpl.
  split; [|split; [|reflexivity]]; intros Hc.
  - by rewrite Hc.
  - by destruct (Z.eqb_spec m 255).
Qed.

Lemma recolor_spec_witness :
  let img : image := [[(0, 100, 130); (10, 10, 10); (0, 0, 0)];
                      [(200, 200, 200); (90, 90, 90); (0, 120, 150)]] in
  let s := process luma_bt601 otsu_exact img in
  px img 1 0 = Some (200, 200, 200) /\
  px (dilated_mask s) 1 0 = Some 255 /\
  px (recolored s) 1 0 = Some (255, 255, 255).
Proof.
  intros img s. split; [reflexivity|]. split; [reflexivity|].
  apply (recolor_spec luma_bt601 otsu_exact img 1 0 (200, 200, 200) 255);
    reflexivity.
Defined.

(** A decidable form of [binary], to evaluate it on examples. *)
Lemma binary_forallb (m : plane) :
  forallb (forallb (fun v => (v =? 0) || (v =? 255))) m = true -> binary m.
Proof.
  intros Hm r c v (row & Hr & Hv)%px_Some.
  rewrite forallb_forall in Hm.
  apply list_elem_of_lookup_2, list_elem_of_In, Hm in Hr.
  rewrite forallb_forall in Hr.
  apply list_elem_of_lookup_2, list_elem_of_In, Hr in Hv.
  apply orb_true_iff in Hv. rewrite !Z.eqb_eq in Hv. done.
Qed.

(** C8. When the thresholded image holds only 0 and 255, so does the image
    that is saved, after the open and the inversion. *)
Theorem output_binary (luma : pixel -> sample) (otsu_level : plane -> Z)
    (img : image) :
  binary (thresh (process luma otsu_level img)) ->
  binary (morph (process luma otsu_level img)).
Proof.
  intros Hb. rewrite morph_eq, opened_eq.
  by apply binary_rsub, binary_morphologyEx.
Qed.

Lemma output_binary_witness :
  let img : image := [[(0, 100, 130); (10, 10, 10); (0, 0, 0)];
                      [(200, 200, 200); (90, 90, 90); (0, 120, 150)]] in
  binary (thresh (process luma_bt601 otsu_exact img)) /\
  binary (morph (process luma_bt601 otsu_exact img)).
Proof.
  intros img.
  assert (Hb : binary (thresh (process luma_bt601 otsu_exact img)))
    by (apply binary_forallb; vm_compute; reflexivity).
  split; [exact Hb|]. apply (output_binary luma_bt601 otsu_exact img). exact Hb.
Defined.

(** ** The reach of the border-isolation stage *)

(** Where no pixel of the border colour lies within 7 rows and 7 columns,
    the dilated mask is 0. *)
Lemma dilated_mask_clear (luma : pixel -> sample) (otsu_level : plane -> Z)
    (img : image) (r c : nat) (p : pixel) :
  px img r c = Some p -> clear_around 7 img r c ->
  px (dilated_mask (process luma otsu_level img)) r c = Some 0.
Proof.
  intros Hp Hclear. rewrite dilated_mask_eq, border_mask_eq.
  unfold morphologyEx. rewrite px_dilate, px_inRange, Hp.
  apply fmap_Some. eexists. split; [reflexivity|]. symmetry.
  apply foldr_max_zero. intros x (r' & c' & Hr & Hc & ->)%window_15_reach.
  destruct (at_border_cases 0 (inRange img lower upper) r' c')
    as [E|(Hr0 & Hc0 & E)]; [done|].
  rewrite px_inRange in E. apply fmap_Some in E as (q & Hq & ->).
  destruct (in_range lower upper q) eqn:Hin; [|done].
  apply in_range_border_colour in Hin.
  destruct (Hclear (Z.to_nat r') (Z.to_nat c') q); [lia|lia|done|done].
Qed.

Lemma no_border_colour_clear (img : image) (r c : nat) :
  no_border_colour img -> clear_around 7 img r c.
Proof. intros Hn r' c' q _ _. apply Hn. Qed.

(** C2, as stated, fails: a pixel strictly outside the range on all three
    channels that sits next to a pixel of the border colour is caught by the
    15-by-15 dilation and stored white. *)
Lemma recolor_frame_counterexample :
  let img : image := [[(0, 100, 130); (10, 10, 10)]] in
  px img 0 1 = Some (10, 10, 10) /\ outside_all (10, 10, 10) /\
  px (recolored (process luma_bt601 otsu_exact img)) 0 1 = Some (255, 255, 255) /\
  px (recolored (process luma_bt601 otsu_exact img)) 0 1 <> px img 0 1.
Proof.
  intros img. split; [reflexivity|]. split.
  - unfold outside_all, ch0, ch1, ch2. simpl. lia.
  - split; [reflexivity|]. vm_compute. discriminate.
Qed.

(** C2, amended. A pixel strictly outside the range on all three channels,
    with no pixel of the border colour within 7 rows and 7 columns of it, is
    the same after the border-isolation stage (mask, dilation, recolour). *)
Theorem recolor_frame (luma : pixel -> sample) (otsu_level : plane -> Z)
    (img : image) (r c : nat) (p : pixel) :
  px img r c = Some p ->
  outside_all p ->
  clear_around 7 img r c ->
  px (recolored (process luma otsu_level img)) r c = Some p.
Proof.
  intros Hp _ Hclear. rewrite recolored_eq. unfold setitem_mask.
  rewrite px_zip_with, Hp, (dilated_mask_clear luma otsu_level img r c p Hp Hclear).
  reflexivity.
Qed.

Lemma recolor_frame_witness :
  let img : image :=
    [[(0, 100, 130); (1, 1, 1); (2, 2, 2); (3, 3, 3); (4, 4, 4); (5, 5, 5);
      (6, 6, 6); (7, 7, 7); (8, 8, 8)]] in
  px img 0 8 = Some (8, 8, 8) /\ outside_all (8, 8, 8) /\
  clear_around 7 img 0 8 /\
  px (recolored (process luma_bt601 otsu_exact img)) 0 8 = Some (8, 8, 8).
Proof.
  intros img.
  assert (Ho : outside_all (8, 8, 8))
    by (unfold outside_all, ch0, ch1, ch2; simpl; lia).
  assert (Hc : clear_around 7 img 0 8).
  { intros r' c' q Hr Hcol Hq. destruct r' as [|r']; [|by destruct r'].
    do 9 (destruct c' as [|c']; [first [lia | injection Hq as <-;
      unfold border_colour, ch0, ch1, ch2; simpl; lia]|]).
    by destruct c'. }
  split; [reflexivity|]. split; [exact Ho|]. split; [exact Hc|].
  apply (recolor_frame luma_bt601 otsu_exact img 0 8 (8, 8, 8) eq_refl Ho Hc).
Defined.

(** C5. On an image without any pixel of the border colour the dilated mask
    selects nothing, the recolour step leaves the buffer as loaded, and the
    saved image has the shape of the input and is, pixel by pixel, 255 minus
    the 17-by-17 open of the Otsu threshold of the grey conversion of the
    input itself. *)
Theorem no_border_passthrough (luma : pixel -> sample) (otsu_level : plane -> Z)
    (img : image) :
  no_border_colour img ->
  let s := process luma otsu_level img in
  let direct :=
    morphologyEx (threshold_OTSU otsu_level (cvtColor_BGR2GRAY luma img) 255)
      MORPH_OPEN (getStructuringElement_RECT (17, 17)%nat) in
  (forall r c, px (dilated_mask s) r c <> Some 255) /\
  recolored s = img /\
  shape (morph s) = shape img /\
  (forall r c, px (morph s) r c = (fun v => 255 - v) <$> px direct r c) /\
  (forall r c, is_Some (px img r c) ->
     exists v, px direct r c = Some v /\ px (morph s) r c = Some (255 - v)).
Proof.
  intros Hn s direct. subst s.
  assert (Hz : forall r c y,
    px (dilated_mask (process luma otsu_level img)) r c = Some y -> y = 0).
  { intros r c y Hy.
    destruct (px_same_shape _ img r c (shape_dilated_mask luma otsu_level img))
      as [p Hp]; [by eexists|].
    rewrite (dilated_mask_clear luma otsu_level img r c p Hp) in Hy
      by by apply no_border_colour_clear.
    congruence. }
  assert (Hrec : recolored (process luma otsu_level img) = img).
  { rewrite recolored_eq. apply zip_with_same_shape_id.
    - apply shape_dilated_mask.
    - intros r c x y _ Hy. by rewrite (Hz r c y Hy). }
  assert (Hopen : opened (process luma otsu_level img) = direct).
  { rewrite opened_eq, thresh_eq, gray_eq. by rewrite Hrec. }
  assert (Hinv : forall r c,
    px (morph (process luma otsu_level img)) r c = (fun v => 255 - v) <$> px direct r c).
  { intros r c. rewrite <- Hopen, morph_eq. unfold rsub. rewrite px_fmap.
    pose proof (binary_opened luma otsu_level img r c) as Hb.
    destruct (px (opened _) r c) as [v|]; [|done].
    destruct (Hb v eq_refl) as [-> | ->]; reflexivity. }
  split; [|split; [exact Hrec|split; [apply shape_morph|split; [exact Hinv|]]]].
  - intros r c Hy. by apply Hz in Hy.
  - intros r c Hp.
    destruct (px_same_shape img direct r c) as [v Hv]; [|done|].
    + rewrite <- Hopen. symmetry. apply shape_opened.
    + exists v. split; [done|]. by rewrite Hinv, Hv.
Qed.

(** A decidable form of [no_border_colour]. *)
Lemma no_border_colour_forallb (img : image) :
  forallb (forallb (fun p => negb (in_range lower upper p))) img = true ->
  no_border_colour img.
Proof.
  intros Hm r c q (row & Hr & Hq)%px_Some.
  rewrite forallb_forall in Hm.
  apply list_elem_of_lookup_2, list_elem_of_In, Hm in Hr.
  rewrite forallb_forall in Hr.
  apply list_elem_of_lookup_2, list_elem_of_In, Hr in Hq.
  rewrite <- in_range_border_colour. by destruct (in_range lower upper q).
Qed.

Lemma no_border_passthrough_witness :
  let img : image := [[(10, 10, 10); (200, 200, 200); (0, 0, 0)];
                      [(0, 79, 130); (90, 90, 90); (1, 100, 130)]] in
  let flat : image := [[(0, 79, 130); (0, 79, 130)]] in
  (no_border_colour img /\
   recolored (process luma_bt601 otsu_exact img) = img /\
   px (morph (process luma_bt601 otsu_exact img)) 0 1 = Some 255 /\
   px (morph (process luma_bt601 otsu_exact img)) 1 2 = Some 255) /\
  (no_border_colour flat /\
   px (morph (process luma_bt601 otsu_exact flat)) 0 1 = Some 0).
Proof.
  intros img flat.
  assert (Hn : no_border_colour img)
    by (apply no_border_colour_forallb; vm_compute; reflexivity).
  assert (Hf : no_border_colour flat)
    by (apply no_border_colour_forallb; vm_compute; reflexivity).
  destruct (no_border_passthrough luma_bt601 otsu_exact img Hn)
    as (_ & Hrec & _ & Hinv & _).
  destruct (no_border_passthrough luma_bt601 otsu_exact flat Hf)
    as (_ & _ & _ & Hinvf & _).
  split.
  - split; [exact Hn|]. split; [exact Hrec|].
    split; rewrite Hinv; vm_compute; reflexivity.
  - split; [exact Hf|]. rewrite Hinvf. vm_compute. reflexivity.
Defined.

(** ** Runs of the script *)

Section Runs.

Variable luma : pixel -> sample.
Variable otsu_level : plane -> Z.
Variable imdecode : bytes -> option image.
Variable imencode_jpg : plane -> bytes.
Variable keys : nat -> option Z.

Local Abbreviation go := (run luma otsu_level imdecode imencode_jpg keys).

Lemma run_S n w : go (S n) w = step imdecode imencode_jpg (keys n) (go n w).
Proof. reflexivity. Qed.

(** A failed load: the first step reads None, the second call raises, and
    the run stays there. *)
Lemma run_load_failure w n :
  imread imdecode w "test.png" = None ->
  go (S n) w = (w, Raise (cv2_error 12)).
Proof.
  intros Hr. induction n as [|n IH].
  - unfold run, exec, script, step. simpl. by rewrite Hr.
  - rewrite run_S, IH. reflexivity.
Qed.

(** A successful load, step by step. *)
Lemma run_success_1 w img :
  imread imdecode w "test.png" = Some img ->
  go 1 w = (w, Imwrite "morph.jpg" (morph (process luma otsu_level img)) (fun _ =>
                Imshow "morph" (morph (process luma otsu_level img)) (
                WaitKey (fun _ => Exit)))).
Proof.
  intros Hr. unfold run, exec, script, step. simpl.
  by rewrite Hr.
Qed.

Lemma run_success_2 w img :
  imread imdecode w "test.png" = Some img ->
  let out := morph (process luma otsu_level img) in
  go 2 w = ((imwrite imencode_jpg w "morph.jpg" out).1,
             Imshow "morph" out (WaitKey (fun _ => Exit))).
Proof. intros Hr out. by rewrite run_S, (run_success_1 w img Hr). Qed.

Lemma run_success_3 w img :
  imread imdecode w "test.png" = Some img ->
  let out := morph (process luma otsu_level img) in
  go 3 w = (imshow (imwrite imencode_jpg w "morph.jpg" out).1 "morph" out,
             WaitKey (fun _ => Exit)).
Proof. intros Hr out. by rewrite run_S, (run_success_2 w img Hr). Qed.

Lemma run_success_later w img n :
  imread imdecode w "test.png" = Some img ->
  let out := morph (process luma otsu_level img) in
  (go (3 + n) w).1 = imshow (imwrite imencode_jpg w "morph.jpg" out).1 "morph" out /\
  ((go (3 + n) w).2 = WaitKey (fun _ => Exit) \/ (go (3 + n) w).2 = Exit).
Proof.
  intros Hr out. induction n as [|n [IHw IHp]].
  - rewrite Nat.add_0_r, (run_success_3 w img Hr). auto.
  - replace (3 + S n)%nat with (S (3 + n)) by lia. rewrite run_S.
    destruct (go (3 + n) w) as [w' p]. simpl in *. subst w'.
    destruct IHp as [-> | ->]; unfold step; simpl; [|auto].
    destruct (keys _); simpl; auto.
Qed.

Lemma run_success_blocked w img n :
  imread imdecode w "test.png" = Some img ->
  (forall i, keys i = None) ->
  (go (3 + n) w).2 = WaitKey (fun _ => Exit).
Proof.
  intros Hr Hk. induction n as [|n IH].
  - by rewrite Nat.add_0_r, (run_success_3 w img Hr).
  - replace (3 + S n)%nat with (S (3 + n)) by lia. rewrite run_S.
    destruct (go (3 + n) w) as [w' p]. simpl in *. subst p.
    unfold step. simpl. by rewrite Hk.
Qed.

Lemma saved_after_write w m :
  writable w = true ->
  saved imencode_jpg m (imshow (imwrite imencode_jpg w "morph.jpg" m).1 "morph" m) /\
  saved imencode_jpg m (imwrite imencode_jpg w "morph.jpg" m).1.
Proof.
  intros Hw. unfold saved, imshow, imwrite. rewrite Hw. simpl.
  split; apply lookup_insert_eq.
Qed.

End Runs.

(** C9. When [test.png] is missing or does not decode, the run ends in an
    unhandled exception raised at line 12, before the output stage; at no
    point of the run has the working directory (or the display) changed, so
    [morph.jpg] is never written. *)
Theorem load_failure_aborts (luma : pixel -> sample) (otsu_level : plane -> Z)
    (imdecode : bytes -> option image) (imencode_jpg : plane -> bytes)
    (keys : nat -> option Z) (w : world) :
  imread imdecode w "test.png" = None ->
  forall n,
    let c := run luma otsu_level imdecode imencode_jpg keys n w in
    c.1 = w /\ files c.1 !! "morph.jpg" = files w !! "morph.jpg" /\
    ((0 < n)%nat -> c.2 = Raise (cv2_error 12)).
Proof.
  intros Hr [|n] c; subst c.
  - split; [reflexivity|]. split; [reflexivity|lia].
  - rewrite (run_load_failure luma otsu_level imdecode imencode_jpg keys w n Hr).
    done.
Qed.

Lemma load_failure_aborts_witness :
  let w := {| files := {["notes.txt" := [104; 105]]}; writable := true; windows := [] |} in
  imread demo_decode w "test.png" = None /\
  run luma_bt601 otsu_exact demo_decode demo_encode (fun _ => Some 32) 7 w
    = (w, Raise (cv2_error 12)).
Proof.
  intros w.
  assert (Hr : imread demo_decode w "test.png" = None) by (vm_compute; reflexivity).
  split; [exact Hr|].
  destruct (load_failure_aborts luma_bt601 otsu_exact demo_decode demo_encode
              (fun _ => Some 32) w Hr 7%nat) as (Hw & _ & Hp).
  apply injective_projections; [exact Hw|apply Hp; lia].
Defined.

(** C10. On a run whose load and write succeed, whenever the run has reached
    the display ([imshow] is next, the window is up, or the key wait has
    begun or ended) [morph.jpg] already holds the encoded output; and when no
    key press ever arrives the run never exits: from the third step on it
    sits in the key wait, with the file on disk. *)
Theorem saved_before_display (luma : pixel -> sample) (otsu_level : plane -> Z)
    (imdecode : bytes -> option image) (imencode_jpg : plane -> bytes)
    (keys : nat -> option Z) (w : world) (img : image) :
  imread imdecode w "test.png" = Some img ->
  writable w = true ->
  let out := morph (process luma otsu_level img) in
  let go := run luma otsu_level imdecode imencode_jpg keys in
  (forall n, at_display w (go n w) -> saved imencode_jpg out (go n w).1) /\
  ((forall i, keys i = None) ->
   forall n, exited (go n w).2 = false /\
             ((3 <= n)%nat -> waiting (go n w).2 = true /\
                              saved imencode_jpg out (go n w).1)).
Proof.
  intros Hr Hw out go. subst go.
  destruct (saved_after_write imencode_jpg w out Hw) as [Hs3 Hs2].
  assert (Hlate : forall n, (3 <= n)%nat ->
    saved imencode_jpg out (run luma otsu_level imdecode imencode_jpg keys n w).1).
  { intros n Hn. replace n with (3 + (n - 3))%nat by lia.
    destruct (run_success_later luma otsu_level imdecode imencode_jpg keys
                w img (n - 3) Hr) as [-> _]. exact Hs3. }
  split.
  - intros n Hd. destruct (decide (3 <= n)%nat) as [Hn|Hn]; [by apply Hlate|].
    destruct n as [|[|[|n]]]; [| | |lia].
    + destruct Hd as [Hd|[Hd|[Hd|Hd]]]; try discriminate Hd. by destruct Hd.
    + rewrite (run_success_1 luma otsu_level imdecode imencode_jpg keys w img Hr) in Hd.
      destruct Hd as [Hd|[Hd|[Hd|Hd]]]; try discriminate Hd. by destruct Hd.
    + rewrite (run_success_2 luma otsu_level imdecode imencode_jpg keys w img Hr).
      exact Hs2.
  - intros Hk n.
    assert (Hwait : (3 <= n)%nat ->
      (run luma otsu_level imdecode imencode_jpg keys n w).2 = WaitKey (fun _ => Exit)).
    { intros Hn. replace n with (3 + (n - 3))%nat by lia.
      by apply (run_success_blocked luma otsu_level imdecode imencode_jpg keys w img). }
    split.
    + destruct (decide (3 <= n)%nat) as [Hn|Hn]; [by rewrite Hwait|].
      destruct n as [|[|[|n]]]; [reflexivity| | |lia].
      * by rewrite (run_success_1 luma otsu_level imdecode imencode_jpg keys w img Hr).
      * by rewrite (run_success_2 luma otsu_level imdecode imencode_jpg keys w img Hr).
    + intros Hn. split; [by rewrite Hwait|by apply Hlate].
Qed.

Lemma saved_before_display_witness :
  let w := {| files := {["test.png" := [10; 200; 30]]}; writable := true; windows := [] |} in
  let img : image := [[(10, 10, 10); (200, 200, 200); (30, 30, 30)]] in
  let go := run luma_bt601 otsu_exact demo_decode demo_encode (fun _ => None) in
  imread demo_decode w "test.png" = Some img /\ writable w = true /\
  waiting (go 9%nat w).2 = true /\
  saved demo_encode (morph (process luma_bt601 otsu_exact img)) (go 9%nat w).1.
Proof.
  intros w img go.
  assert (Hr : imread demo_decode w "test.png" = Some img) by (vm_compute; reflexivity).
  split; [exact Hr|]. split; [reflexivity|].
  destruct (saved_before_display luma_bt601 otsu_exact demo_decode demo_encode
              (fun _ => None) w img Hr eq_refl) as [_ Hblock].
  apply (Hblock (fun _ => eq_refl) 9%nat). lia.
Defined.

(** * Further properties of the script *)

(** ** Maximum and minimum of a window, once more *)

Lemma foldr_max_elem (l : list Z) :
  foldr Z.max 0 l = 0 \/ foldr Z.max 0 l ∈ l.
Proof.
  induction l as [|y l IH]; simpl; [by left|].
  destruct (Z.max_spec y (foldr Z.max 0 l)) as [[_ ->]|[_ ->]].
  - destruct IH as [IH|IH]; [by left|right; by right].
  - right; by left.
Qed.

Lemma foldr_min_le (l : list Z) x : x ∈ l -> foldr Z.min 255 l <= x.
Proof.
  induction l as [|y l IH]; [by intros ?%elem_of_nil|].
  intros [->|Hx]%elem_of_cons; simpl; [lia|]. specialize (IH Hx). lia.
Qed.

Lemma foldr_min_top (l : list Z) :
  (forall x, x ∈ l -> x = 255) -> foldr Z.min 255 l = 255.
Proof.
  induction l as [|y l IH]; simpl; [done|]. intros Hl.
  rewrite IH by (intros; apply Hl; by right).
  rewrite (Hl y) by by left. reflexivity.
Qed.

(** The window of a square kernel of odd side 2n+1 reads exactly the
    positions at most n rows and n columns away. *)
Lemma elem_of_window_square (n : nat) d src r c v :
  v ∈ window d (getStructuringElement_RECT (2 * n + 1, 2 * n + 1)%nat) src r c <->
  exists r' c' : Z,
    Z.abs (r' - Z.of_nat r) <= Z.of_nat n /\ Z.abs (c' - Z.of_nat c) <= Z.of_nat n /\
    v = at_border d src r' c'.
Proof.
  assert (Ha : Z.of_nat (2 * n + 1) / 2 = Z.of_nat n).
  { symmetry. apply (Z.div_unique _ _ _ 1); lia. }
  rewrite elem_of_window, anchor_RECT, Ha.
  destruct (decide ((2 * n + 1)%nat = 0%nat)); [lia|]. cbn [fst snd]. split.
  - intros (i & j & e & (Hi & Hj & _)%px_RECT & _ & ->).
    eexists _, _. split; [|split; [|reflexivity]]; lia.
  - intros (r' & c' & Hr & Hc & ->).
    exists (Z.to_nat (r' - Z.of_nat r + Z.of_nat n)),
           (Z.to_nat (c' - Z.of_nat c + Z.of_nat n)), 1.
    split; [apply px_RECT; lia|]. split; [done|]. f_equal; lia.
Qed.

(** ** Dilation and erosion of a 0/255 plane by a square kernel *)

Lemma px_at_border d (m : plane) (r c : nat) v :
  px m r c = Some v -> at_border d m (Z.of_nat r) (Z.of_nat c) = v.
Proof. intros Hv. by rewrite at_border_inside, Hv. Qed.

Lemma dilate_square_255 (n : nat) (src : plane) (r c : nat) :
  binary src ->
  px (dilate src (getStructuringElement_RECT (2 * n + 1, 2 * n + 1)%nat)) r c = Some 255 <->
  is_Some (px src r c) /\
  exists r' c', near (Z.of_nat n) r c r' c' /\ px src r' c' = Some 255.
Proof.
  intros Hb. rewrite px_dilate, fmap_Some. split.
  - intros (x & Hx & Hmax). split; [by eexists|].
    destruct (foldr_max_elem
      (window 0 (getStructuringElement_RECT (2 * n + 1, 2 * n + 1)%nat) src r c))
      as [E|E]; [congruence|].
    rewrite <- Hmax in E.
    apply elem_of_window_square in E as (r' & c' & Hr & Hc & E).
    destruct (at_border_cases 0 src r' c') as [E0|(Hr0 & Hc0 & E1)]; [congruence|].
    rewrite <- E in E1. exists (Z.to_nat r'), (Z.to_nat c').
    split; [unfold near; lia|done].
  - intros ([x Hx] & r' & c' & [Hr Hc] & Hv). exists x. split; [done|].
    apply Z.le_antisymm.
    + apply foldr_max_ge, elem_of_window_square.
      exists (Z.of_nat r'), (Z.of_nat c'). split; [done|]. split; [done|].
      symmetry. by apply px_at_border.
    + apply foldr_max_le; [done|].
      intros y (i & j & e & _ & _ & ->)%elem_of_window.
      match goal with |- at_border 0 src ?a ?b <= _ =>
        destruct (at_border_binary 0 src a b Hb) as [E|E]; [by left|..]; rewrite E
      end; done.
Qed.

Lemma erode_square_255 (n : nat) (src : plane) (r c : nat) :
  binary src ->
  px (erode src (getStructuringElement_RECT (2 * n + 1, 2 * n + 1)%nat)) r c = Some 255 <->
  is_Some (px src r c) /\ solid_around (Z.of_nat n) src r c.
Proof.
  intros Hb. rewrite px_erode, fmap_Some. split.
  - intros (x & Hx & Hmin). split; [by eexists|].
    intros r' c' v [Hr Hc] Hv.
    assert (Hle : 255 <= v).
    { rewrite Hmin. apply foldr_min_le, elem_of_window_square.
      exists (Z.of_nat r'), (Z.of_nat c'). split; [done|]. split; [done|].
      symmetry. by apply px_at_border. }
    destruct (Hb r' c' v Hv); lia.
  - intros ([x Hx] & Hs). exists x. split; [done|]. symmetry.
    apply foldr_min_top.
    intros y (r' & c' & Hr & Hc & ->)%elem_of_window_square.
    destruct (at_border_cases 255 src r' c') as [E|(Hr0 & Hc0 & E)]; [done|].
    apply (Hs (Z.to_nat r') (Z.to_nat c')); [unfold near; lia|done].
Qed.

Lemma px_erode_is_Some src kernel r c :
  is_Some (px (erode src kernel) r c) <-> is_Some (px src r c).
Proof. rewrite px_erode. apply fmap_is_Some. Qed.

(** The open of a 0/255 plane by a square kernel of side 2n+1: a pixel is
    255 exactly when some solid (clipped) square centred within n of it
    covers it. *)
Lemma open_square_255 (n : nat) (src : plane) (r c : nat) :
  binary src ->
  px (morphologyEx src MORPH_OPEN
        (getStructuringElement_RECT (2 * n + 1, 2 * n + 1)%nat)) r c = Some 255 <->
  is_Some (px src r c) /\
  exists r' c', near (Z.of_nat n) r c r' c' /\ is_Some (px src r' c') /\
                solid_around (Z.of_nat n) src r' c'.
Proof.
  intros Hb. unfold morphologyEx.
  rewrite dilate_square_255 by by apply binary_erode.
  rewrite px_erode_is_Some. split.
  - intros (Hp & r' & c' & Hn & He). split; [done|].
    apply erode_square_255 in He; [|done]. by exists r', c'.
  - intros (Hp & r' & c' & Hn & Hq & Hs). split; [done|].
    exists r', c'. split; [done|]. by apply erode_square_255.
Qed.

(** ** The stages on the loaded image *)

Lemma has_dims_px {A} (W H : nat) (m : list (list A)) (r c : nat) :
  has_dims W H m -> (is_Some (px m r c) <-> (r < H)%nat /\ (c < W)%nat).
Proof.
  unfold has_dims, shape. intros Hd.
  assert (Hr := f_equal (.!! r) Hd). rewrite list_lookup_fmap in Hr.
  unfold px. destruct (m !! r) as [row|] eqn:Er; simpl in *.
  - symmetry in Hr. apply lookup_replicate in Hr as [Hl Hr].
    rewrite lookup_lt_is_Some. lia.
  - symmetry in Hr. apply lookup_replicate_None in Hr.
    split; [by intros [? ?]|lia].
Qed.

Lemma px_same_shape_iff {A B} (a : list (list A)) (b : list (list B)) r c :
  shape a = shape b -> is_Some (px a r c) <-> is_Some (px b r c).
Proof. intros Hs. split; by apply px_same_shape. Qed.

Section Stages.

Variable luma : pixel -> sample.
Variable otsu_level : plane -> Z.
Variable img : image.

Local Abbreviation s := (process luma otsu_level img).

Lemma binary_border_mask : binary (border_mask s).
Proof. apply binary_inRange. Qed.

Lemma binary_dilated_mask : binary (dilated_mask s).
Proof. rewrite dilated_mask_eq. apply binary_morphologyEx, binary_border_mask. Qed.

Lemma px_border_mask_255 r c :
  px (border_mask s) r c = Some 255 <->
  exists q, px img r c = Some q /\ border_colour q.
Proof.
  rewrite border_mask_eq, px_inRange, fmap_Some. split.
  - intros (q & Hq & Hv). exists q. split; [done|].
    apply in_range_border_colour. by destruct (in_range lower upper q).
  - intros (q & Hq & Hin%in_range_border_colour). exists q. by rewrite Hin.
Qed.

Lemma px_dilated_mask_255 r c :
  px (dilated_mask s) r c = Some 255 <->
  is_Some (px img r c) /\
  exists r' c' q, near 7 r c r' c' /\ px img r' c' = Some q /\ border_colour q.
Proof.
  rewrite dilated_mask_eq. unfold morphologyEx.
  rewrite (dilate_square_255 7 (border_mask s) r c binary_border_mask).
  rewrite (px_same_shape_iff _ img r c (shape_border_mask luma otsu_level img)).
  split; intros (Hp & r' & c' & Hrest); (split; [done|]); exists r', c'.
  - destruct Hrest as (Hn & (q & Hq & Hb)%px_border_mask_255). by exists q.
  - destruct Hrest as (q & Hn & Hq & Hb). split; [done|].
    apply px_border_mask_255. by exists q.
Qed.

Lemma px_recolored r c :
  px (recolored s) r c =
  p ← px img r c; m ← px (dilated_mask s) r c;
  Some (if m =? 255 then white else p).
Proof. rewrite recolored_eq. apply px_zip_with. Qed.

Lemma px_recolored_Some r c q :
  px (recolored s) r c = Some q <->
  exists p m, px img r c = Some p /\ px (dilated_mask s) r c = Some m /\
              q = if m =? 255 then white else p.
Proof.
  rewrite px_recolored, bind_Some. split.
  - intros (p & Hp & (m & Hm & [= <-])%bind_Some). by exists p, m.
  - intros (p & m & Hp & Hm & ->). exists p. split; [done|].
    apply bind_Some. by exists m.
Qed.

Lemma px_morph_inverted r c :
  px (morph s) r c = (fun v => 255 - v) <$> px (opened s) r c.
Proof.
  rewrite morph_eq. unfold rsub. rewrite px_fmap.
  pose proof (binary_opened luma otsu_level img r c) as Hb.
  destruct (px (opened s) r c) as [v|]; [|done].
  destruct (Hb v eq_refl) as [-> | ->]; reflexivity.
Qed.

Lemma px_opened_255 r c :
  px (opened s) r c = Some 255 <->
  is_Some (px (thresh s) r c) /\
  exists r' c', near 8 r c r' c' /\ is_Some (px (thresh s) r' c') /\
                solid_around 8 (thresh s) r' c'.
Proof.
  rewrite opened_eq.
  apply (open_square_255 8 (thresh s) r c (binary_thresh luma otsu_level img)).
Qed.

Lemma px_opened_is_Some r c :
  is_Some (px (opened s) r c) <-> is_Some (px (thresh s) r c).
Proof.
  apply px_same_shape_iff.
  by rewrite (shape_opened luma otsu_level img), (shape_thresh luma otsu_level img).
Qed.

End Stages.

(** X1. The dilated mask holds only 0 and 255, and is 255 exactly at the
    positions of the image that have a pixel of the border colour at most 7
    rows and 7 columns away. *)
Theorem dilated_mask_spec (luma : pixel -> sample) (otsu_level : plane -> Z)
    (img : image) (r c : nat) :
  let s := process luma otsu_level img in
  binary (dilated_mask s) /\
  (px (dilated_mask s) r c = Some 255 <->
   is_Some (px img r c) /\
   exists r' c' q, near 7 r c r' c' /\ px img r' c' = Some q /\ border_colour q).
Proof.
  intros s. split; [apply binary_dilated_mask|apply px_dilated_mask_255].
Qed.

(** X2. A pixel with a pixel of the border colour at most 7 rows and 7
    columns away is stored white by line 19, whatever its own colour. *)
Theorem near_border_recolored (luma : pixel -> sample) (otsu_level : plane -> Z)
    (img : image) (r c r' c' : nat) (p q : pixel) :
  px img r c = Some p ->
  near 7 r c r' c' -> px img r' c' = Some q -> border_colour q ->
  px (recolored (process luma otsu_level img)) r c = Some (255, 255, 255).
Proof.
  intros Hp Hn Hq Hb. apply px_recolored_Some. exists p, 255.
  split; [done|]. split; [|done].
  apply px_dilated_mask_255. split; [by eexists|]. by exists r', c', q.
Qed.

Lemma near_border_recolored_witness :
  let img : image :=
    [[(9, 9, 9); (1, 1, 1); (2, 2, 2)]; [(3, 3, 3); (4, 4, 4); (5, 5, 5)];
     [(6, 6, 6); (7, 7, 7); (0, 120, 150)]] in
  px img 0 0 = Some (9, 9, 9) /\ near 7 0 0 2 2 /\
  px img 2 2 = Some (0, 120, 150) /\ border_colour (0, 120, 150) /\
  px (recolored (process luma_bt601 otsu_exact img)) 0 0 = Some (255, 255, 255).
Proof.
  intros img.
  assert (Hn : near 7 0 0 2 2) by (unfold near; simpl; lia).
  assert (Hb : border_colour (0, 120, 150))
    by (unfold border_colour, ch0, ch1, ch2; simpl; lia).
  split; [reflexivity|]. split; [exact Hn|]. split; [reflexivity|].
  split; [exact Hb|].
  apply (near_border_recolored luma_bt601 otsu_exact img 0 0 2 2
           (9, 9, 9) (0, 120, 150) eq_refl Hn eq_refl Hb).
Defined.

(** X3. After line 19 the buffer holds no pixel of the border colour, so
    running the border-isolation stage on it again changes nothing. *)
Theorem border_isolation_idempotent (luma : pixel -> sample)
    (otsu_level : plane -> Z) (img : image) :
  let img' := recolored (process luma otsu_level img) in
  no_border_colour img' /\
  recolored (process luma otsu_level img') = img'.
Proof.
  intros img'.
  assert (Hn : no_border_colour img').
  { intros r c q Hq Hb. subst img'.
    apply px_recolored_Some in Hq as (p & m & Hp & Hm & ->).
    destruct (Z.eqb_spec m 255) as [->|Hne].
    - unfold border_colour, ch0 in Hb. simpl in Hb. lia.
    - apply Hne.
      assert (H255 : px (dilated_mask (process luma otsu_level img)) r c = Some 255).
      { apply px_dilated_mask_255. split; [by eexists|].
        exists r, c, p. unfold near. split; [lia|done]. }
      congruence. }
  split; [exact Hn|].
  rewrite recolored_eq. apply zip_with_same_shape_id.
  - apply shape_dilated_mask.
  - intros r c x y Hx Hy.
    rewrite (dilated_mask_clear luma otsu_level img' r c x Hx) in Hy
      by by apply no_border_colour_clear.
    by injection Hy as <-.
Qed.

Section Output.

Variable luma : pixel -> sample.
Variable otsu_level : plane -> Z.
Variable img : image.

Local Abbreviation s := (process luma otsu_level img).

Lemma px_thresh_is_Some r c :
  is_Some (px (thresh s) r c) <-> is_Some (px img r c).
Proof. apply px_same_shape_iff, shape_thresh. Qed.

Lemma px_morph_0 r c :
  px (morph s) r c = Some 0 <-> px (opened s) r c = Some 255.
Proof.
  rewrite px_morph_inverted, fmap_Some. split.
  - intros (v & Hv & E). rewrite Hv. f_equal. lia.
  - intros Hv. by exists 255.
Qed.

(** Where the thresholded image is 0 the opened image is 0. *)
Lemma px_opened_0 r c :
  px (thresh s) r c = Some 0 -> px (opened s) r c = Some 0.
Proof.
  intros Ht.
  destruct (proj2 (px_opened_is_Some luma otsu_level img r c)) as [v Hv];
    [by eexists|].
  destruct (binary_opened luma otsu_level img r c v Hv) as [->| ->]; [done|].
  apply px_opened_255 in Hv as (_ & r' & c' & [Hr Hc] & _ & Hs).
  assert (0 = 255); [|done].
  apply (Hs r c 0); [unfold near; lia|done].
Qed.

End Output.

(** X4. The saved image holds only 0 and 255, and a pixel of it is 0
    exactly when a solid 17-by-17 square of the thresholded image (clipped to
    the image, centred on the image at most 8 rows and 8 columns away) covers
    it.  Squares are not broken at the image edge. *)
Theorem output_black_spec (luma : pixel -> sample) (otsu_level : plane -> Z)
    (img : image) (r c : nat) :
  let s := process luma otsu_level img in
  binary (morph s) /\
  (px (morph s) r c = Some 0 <->
   is_Some (px img r c) /\
   exists r' c', near 8 r c r' c' /\ is_Some (px img r' c') /\
                 solid_around 8 (thresh s) r' c').
Proof.
  intros s. subst s. split.
  - rewrite morph_eq. apply binary_rsub, binary_opened.
  - rewrite px_morph_0, px_opened_255, px_thresh_is_Some.
    split; intros (Hp & r' & c' & Hn & Hq & Hs); (split; [done|]);
      exists r', c'; (split; [done|]); (split; [|done]);
      by apply (px_thresh_is_Some luma otsu_level img r' c').
Qed.

(** X5. The clean-up never adds foreground: a pixel that is 0 after the
    threshold is 255 in the saved image. *)
Theorem background_stays (luma : pixel -> sample) (otsu_level : plane -> Z)
    (img : image) (r c : nat) :
  px (thresh (process luma otsu_level img)) r c = Some 0 ->
  px (morph (process luma otsu_level img)) r c = Some 255.
Proof.
  intros Ht. rewrite px_morph_inverted.
  by rewrite (px_opened_0 luma otsu_level img r c Ht).
Qed.

Lemma background_stays_witness :
  let img : image := [[(10, 10, 10); (200, 200, 200)]; [(90, 90, 90); (220, 220, 220)]] in
  px (thresh (process luma_bt601 otsu_exact img)) 0 0 = Some 0 /\
  px (morph (process luma_bt601 otsu_exact img)) 0 0 = Some 255.
Proof.
  intros img.
  assert (Ht : px (thresh (process luma_bt601 otsu_exact img)) 0 0 = Some 0)
    by (vm_compute; reflexivity).
  split; [exact Ht|].
  apply (background_stays luma_bt601 otsu_exact img 0 0 Ht).
Defined.

(** X6. When every pixel is 255 after the threshold, every pixel of the saved
    image is 0: the open does not eat into the image at its edges. *)
Theorem uniform_foreground (luma : pixel -> sample) (otsu_level : plane -> Z)
    (img : image) (r c : nat) :
  (forall r' c' v, px (thresh (process luma otsu_level img)) r' c' = Some v -> v = 255) ->
  is_Some (px img r c) ->
  px (morph (process luma otsu_level img)) r c = Some 0.
Proof.
  intros Hall Hp. apply px_morph_0, px_opened_255.
  assert (Ht : is_Some (px (thresh (process luma otsu_level img)) r c))
    by by apply px_thresh_is_Some.
  split; [done|]. exists r, c. split; [unfold near; lia|]. split; [done|].
  intros r' c' v _. apply Hall.
Qed.

(** X7. On an image of at most 9 by 9 pixels every 17-by-17 window covers
    the whole image, so a single 0 after the threshold turns the whole saved
    image 255. *)
Theorem small_image_uniform (luma : pixel -> sample) (otsu_level : plane -> Z)
    (W H : nat) (img : image) (r0 c0 r c : nat) :
  has_dims W H img -> (W <= 9)%nat -> (H <= 9)%nat ->
  px (thresh (process luma otsu_level img)) r0 c0 = Some 0 ->
  (r < H)%nat -> (c < W)%nat ->
  px (morph (process luma otsu_level img)) r c = Some 255.
Proof.
  intros Hd HW HH H0 Hr Hc.
  assert (Himg : forall r c, is_Some (px img r c) <-> (r < H)%nat /\ (c < W)%nat)
    by (intros; by apply has_dims_px).
  assert (Hin0 : (r0 < H)%nat /\ (c0 < W)%nat).
  { apply Himg, (px_thresh_is_Some luma otsu_level img). by eexists. }
  destruct (proj2 (px_opened_is_Some luma otsu_level img r c)) as [v Hv].
  { apply px_thresh_is_Some, Himg. done. }
  rewrite px_morph_inverted, Hv.
  destruct (binary_opened luma otsu_level img r c v Hv) as [->| ->]; [done|].
  apply px_opened_255 in Hv as (_ & r' & c' & _ & Hq & Hs).
  apply px_thresh_is_Some, Himg in Hq.
  assert (0 = 255); [|done].
  apply (Hs r0 c0 0); [unfold near; lia|done].
Qed.

(** Reading a property of every sample off a boolean scan of the plane. *)
Lemma px_forallb (P : Z -> bool) (m : plane) :
  forallb (forallb P) m = true -> forall r c v, px m r c = Some v -> P v = true.
Proof.
  intros Hm r c v (row & Hr & Hv)%px_Some.
  rewrite forallb_forall in Hm.
  apply list_elem_of_lookup_2, list_elem_of_In, Hm in Hr.
  rewrite forallb_forall in Hr.
  by apply list_elem_of_lookup_2, list_elem_of_In, Hr in Hv.
Qed.

Lemma uniform_foreground_witness :
  let img : image := [[(0, 100, 130); (0, 80, 110)]; [(0, 120, 150); (0, 90, 140)]] in
  is_Some (px img 1 0) /\
  px (morph (process luma_bt601 otsu_exact img)) 1 0 = Some 0.
Proof.
  intros img.
  assert (Hp : is_Some (px img 1 0)) by (eexists; reflexivity).
  split; [exact Hp|].
  apply (uniform_foreground luma_bt601 otsu_exact img 1 0); [|exact Hp].
  intros r' c' v Hv. apply Z.eqb_eq.
  refine (px_forallb (fun v => v =? 255)
            (thresh (process luma_bt601 otsu_exact img)) _ r' c' v Hv).
  vm_compute. reflexivity.
Defined.

Lemma small_image_uniform_witness :
  let img : image := [[(10, 10, 10); (200, 200, 200)]; [(90, 90, 90); (220, 220, 220)]] in
  has_dims 2 2 img /\
  px (thresh (process luma_bt601 otsu_exact img)) 0 0 = Some 0 /\
  px (thresh (process luma_bt601 otsu_exact img)) 1 1 = Some 255 /\
  px (morph (process luma_bt601 otsu_exact img)) 1 1 = Some 255.
Proof.
  intros img. split; [reflexivity|]. split; [reflexivity|]. split; [reflexivity|].
  apply (small_image_uniform luma_bt601 otsu_exact 2 2 img 0 0 1 1);
    [reflexivity|lia|lia|reflexivity|lia|lia].
Defined.

(** ** More on the runs of the script *)

Section MoreRuns.

Variable luma : pixel -> sample.
Variable otsu_level : plane -> Z.
Variable imdecode : bytes -> option image.
Variable imencode_jpg : plane -> bytes.
Variable keys : nat -> option Z.

Local Abbreviation go := (run luma otsu_level imdecode imencode_jpg keys).

Lemma run_exit_stays w n m :
  (go n w).2 = Exit -> go (m + n) w = go n w.
Proof.
  intros He. induction m as [|m IH]; [done|].
  change (S m + n)%nat with (S (m + n)). rewrite run_S, IH.
  destruct (go n w) as [w' p]. simpl in He. subst p. reflexivity.
Qed.

End MoreRuns.

(** X8. The calls of a run: a read is pending only at step 0 and is of
    [test.png]; a write is pending only at step 1 and is of the array of line
    30 to [morph.jpg]; a display is pending only at step 2 and is of the same
    array in the window titled "morph".  So no run makes any other read or
    write call, and none makes one of them twice. *)
Theorem script_calls (luma : pixel -> sample) (otsu_level : plane -> Z)
    (imdecode : bytes -> option image) (imencode_jpg : plane -> bytes)
    (keys : nat -> option Z) (w : world) (n : nat) :
  match (run luma otsu_level imdecode imencode_jpg keys n w).2 with
  | Imread path _ => n = 0%nat /\ path = "test.png"
  | Imwrite path m _ =>
      n = 1%nat /\ path = "morph.jpg" /\
      exists img, imread imdecode w "test.png" = Some img /\
                  m = morph (process luma otsu_level img)
  | Imshow name m _ =>
      n = 2%nat /\ name = "morph" /\
      exists img, imread imdecode w "test.png" = Some img /\
                  m = morph (process luma otsu_level img)
  | WaitKey _ => (3 <= n)%nat
  | Exit => (4 <= n)%nat
  | Raise _ => (1 <= n)%nat /\ imread imdecode w "test.png" = None
  end.
Proof.
  destruct (imread imdecode w "test.png") as [img|] eqn:Hr.
  - destruct n as [|[|[|n]]].
    + done.
    + rewrite (run_success_1 luma otsu_level imdecode imencode_jpg keys w img Hr).
      simpl. split; [done|]. split; [done|]. by exists img.
    + rewrite (run_success_2 luma otsu_level imdecode imencode_jpg keys w img Hr).
      simpl. split; [done|]. split; [done|]. by exists img.
    + destruct n as [|n].
      * rewrite (run_success_3 luma otsu_level imdecode imencode_jpg keys w img Hr).
        simpl. lia.
      * change (S (S (S (S n)))) with (3 + S n)%nat.
        destruct (run_success_later luma otsu_level imdecode imencode_jpg keys
                    w img (S n) Hr) as [_ [-> | ->]]; lia.
  - destruct n as [|n]; [done|].
    rewrite (run_load_failure luma otsu_level imdecode imencode_jpg keys w n Hr).
    simpl. split; [lia|done].
Qed.

(** X9. A failed write is silent: line 33 drops the status [imwrite]
    returns, so when the image loads but [morph.jpg] cannot be written the
    run raises nothing, leaves the working directory as it was, and still
    shows the window and waits for a key. *)
Theorem write_failure_silent (luma : pixel -> sample) (otsu_level : plane -> Z)
    (imdecode : bytes -> option image) (imencode_jpg : plane -> bytes)
    (keys : nat -> option Z) (w : world) (img : image) (n : nat) :
  imread imdecode w "test.png" = Some img ->
  writable w = false ->
  let c := run luma otsu_level imdecode imencode_jpg keys n w in
  (forall e, c.2 <> Raise e) /\ files c.1 = files w /\
  ((3 <= n)%nat ->
   windows c.1 = ("morph", morph (process luma otsu_level img)) :: windows w /\
   (waiting c.2 = true \/ exited c.2 = true)).
Proof.
  intros Hr Hw c. subst c.
  assert (Hw1 : forall m, (imwrite imencode_jpg w "morph.jpg" m).1 = w)
    by (intros m; unfold imwrite; by rewrite Hw).
  destruct n as [|[|[|n]]].
  - split; [done|]. split; [done|lia].
  - rewrite (run_success_1 luma otsu_level imdecode imencode_jpg keys w img Hr).
    split; [done|]. split; [done|lia].
  - rewrite (run_success_2 luma otsu_level imdecode imencode_jpg keys w img Hr).
    simpl. rewrite Hw1. split; [done|]. split; [done|lia].
  - destruct (run_success_later luma otsu_level imdecode imencode_jpg keys
                w img n Hr) as [Hworld Hprog].
    change (S (S (S n))) with (3 + n)%nat.
    destruct (run _ _ _ _ _ (3 + n) w) as [w' p]. simpl in Hworld, Hprog.
    subst w'. rewrite Hw1. simpl.
    split; [|split; [done|]].
    + intros e. by destruct Hprog as [-> | ->].
    + intros _. split; [done|]. by destruct Hprog as [-> | ->]; [left|right].
Qed.

Lemma write_failure_silent_witness :
  let w := {| files := {["test.png" := [10; 200; 30]]}; writable := false; windows := [] |} in
  let img : image := [[(10, 10, 10); (200, 200, 200); (30, 30, 30)]] in
  let c := run luma_bt601 otsu_exact demo_decode demo_encode (fun _ => None) 5 w in
  imread demo_decode w "test.png" = Some img /\ writable w = false /\
  files c.1 = files w.
Proof.
  intros w img c.
  assert (Hr : imread demo_decode w "test.png" = Some img) by (vm_compute; reflexivity).
  split; [exact Hr|]. split; [reflexivity|].
  apply (write_failure_silent luma_bt601 otsu_exact demo_decode demo_encode
           (fun _ => None) w img 5 Hr eq_refl).
Defined.

(** X10. On a run whose load succeeds, a key press delivered at step n >= 3
    (the wait has begun by then) ends the script: at every later step the run
    has exited normally, the window titled "morph" shows the array of line
    30, and, when the directory is writable, [morph.jpg] holds its
    encoding. *)
Theorem key_press_exits (luma : pixel -> sample) (otsu_level : plane -> Z)
    (imdecode : bytes -> option image) (imencode_jpg : plane -> bytes)
    (keys : nat -> option Z) (w : world) (img : image) (n m : nat) (code : Z) :
  imread imdecode w "test.png" = Some img ->
  (3 <= n)%nat -> keys n = Some code -> (n < m)%nat ->
  let out := morph (process luma otsu_level img) in
  let c := run luma otsu_level imdecode imencode_jpg keys m w in
  c.2 = Exit /\ windows c.1 = ("morph", out) :: windows w /\
  (writable w = true -> saved imencode_jpg out c.1).
Proof.
  intros Hr Hn Hk Hm out c. subst c.
  destruct (run_success_later luma otsu_level imdecode imencode_jpg keys
              w img (n - 3) Hr) as [Hworld Hprog].
  replace (3 + (n - 3))%nat with n in * by lia.
  assert (Hnext : run luma otsu_level imdecode imencode_jpg keys (S n) w =
    (imshow (imwrite imencode_jpg w "morph.jpg" out).1 "morph" out, Exit)).
  { rewrite run_S. destruct (run _ _ _ _ _ n w) as [w' p]. simpl in *. subst w'.
    destruct Hprog as [-> | ->]; unfold step; simpl; [by rewrite Hk|done]. }
  replace m with ((m - S n) + S n)%nat by lia.
  rewrite (run_exit_stays luma otsu_level imdecode imencode_jpg keys w (S n) (m - S n));
    [|by rewrite Hnext].
  rewrite Hnext. simpl.
  split; [done|]. split.
  - unfold imwrite. by destruct (writable w).
  - intros Hw. by destruct (saved_after_write imencode_jpg w out Hw) as [Hs _].
Qed.

Lemma key_press_exits_witness :
  let w := {| files := {["test.png" := [10; 200; 30]]}; writable := true; windows := [] |} in
  let img : image := [[(10, 10, 10); (200, 200, 200); (30, 30, 30)]] in
  let keys := fun i : nat => if (i =? 4)%nat then Some 27 else None in
  imread demo_decode w "test.png" = Some img /\ keys 4%nat = Some 27 /\
  (run luma_bt601 otsu_exact demo_decode demo_encode keys 8 w).2 = Exit.
Proof.
  intros w img keys.
  assert (Hr : imread demo_decode w "test.png" = Some img) by (vm_compute; reflexivity).
  split; [exact Hr|]. split; [reflexivity|].
  apply (key_press_exits luma_bt601 otsu_exact demo_decode demo_encode keys
           w img 4 8 27 Hr); [lia|reflexivity|lia].
Defined.
